(** * abject-admin: the contact controller and the client router

    A shallow embedding of the two source files of the application,

    - [src/server/controllers/contact-controller.js] (module [Server]) and
    - [src/client/app/app.js] (module [Client]),

    together with the properties of them that the specification states.

    JavaScript values are an inductive type, objects are finite maps from
    property names to values, promise chains are combinators of a small
    state monad, and everything a handler does to the outside (driver
    calls, [console.log], the response, [next]) is recorded in a trace. *)

From Stdlib Require Import Ascii String.
From stdpp Require Import gmap strings list fin_maps.

Set Warnings "-register-all".

(** ** JavaScript values and promises *)

Module JS.

(** The values that flow through the two files: request parameters,
    request bodies, documents and what the session service answers.
    Numbers are the integers (the source only writes integer literals). *)
Inductive value : Type :=
  | VUndefined
  | VNull
  | VBool (b : bool)
  | VNum (n : Z)
  | VStr (s : string)
  | VArr (xs : list value)
  | VObj (o : gmap string value).

(** [if (v)] : undefined, null, false, 0 and the empty string are falsy,
    every array and object is truthy. *)
Definition truthy (v : value) : bool :=
  match v with
  | VUndefined | VNull => false
  | VBool b => b
  | VNum n => negb (n =? 0)%Z
  | VStr s => negb (String.eqb s "")
  | VArr _ | VObj _ => true
  end.

(** [o.k] on an object: the property, or undefined when it is absent. *)
Definition prop (o : gmap string value) (k : string) : value :=
  default VUndefined (o !! k).

(** An object literal [{k1: v1, ..., kn: vn}]. *)
Definition literal (fields : list (string * value)) : value :=
  VObj (list_to_map fields).

(** How a promise settles: fulfilled with a value, or rejected with a
    reason of type [E]. A promise that never settles runs no callback
    and is not modelled. *)
Inductive settled (E : Type) : Type :=
  | Fulfilled (v : value)
  | Rejected (e : E).
Arguments Fulfilled {E} v.
Arguments Rejected {E} e.

(** Code with effects on a world [W] (explicit state passing). *)
Definition M (W A : Type) : Type := W → A * W.

Definition ret {W A} (a : A) : M W A := λ w, (a, w).
Definition bind {W A B} (m : M W A) (k : A → M W B) : M W B :=
  λ w, let (a, w') := m w in k a w'.

Declare Scope js_scope.
Delimit Scope js_scope with js.
Notation "x <- m ;; k" := (bind m (λ x, k))
  (at level 100, m at next level, right associativity) : js_scope.
Notation "m ;; k" := (bind m (λ _, k))
  (at level 100, right associativity) : js_scope.
Open Scope js_scope.

(** [p.then(f)]: when [p] is fulfilled, [f] runs on its value and the
    new promise is fulfilled with what [f] returns (the callbacks of both
    files return nothing); a rejection of [p] passes through. The
    callbacks of the two files only call [res.status], [res.json], [next],
    [console.log] and [$state.go] and write one property; these complete,
    so a callback that throws is not modelled. *)
Definition then_ {W E} (p : M W (settled E)) (f : value → M W unit)
  : M W (settled E) :=
  s <- p ;;
  match s with
  | Fulfilled v => f v ;; ret (Fulfilled VUndefined)
  | Rejected e => ret (Rejected e)
  end.

(** [p.catch(g)]: when [p] is rejected, [g] runs on the reason; a
    fulfilment of [p] passes through. *)
Definition catch_ {W E} (p : M W (settled E)) (g : E → M W unit)
  : M W (settled E) :=
  s <- p ;;
  match s with
  | Fulfilled v => ret (Fulfilled v)
  | Rejected e => g e ;; ret (Fulfilled VUndefined)
  end.

(** A statement whose value is dropped. *)
Definition void {W A} (m : M W A) : M W unit := m ;; ret tt.

End JS.

Import JS.
Open Scope js_scope.

(** ** The contact controller *)

Module Server.

(** Error objects are the only objects the controller writes to
    ([err.status = ...]); they live in a heap and are passed by
    reference. A reference is an index into the heap. *)
Definition loc := nat.

(** A request, as far as the handlers read it: [req.params] and
    [req.body]. Both are objects: the router fills the first, the body
    parser of the application the second (an empty object when the
    request has no body). *)
Record request := Request {
  params : gmap string value;
  body : gmap string value
}.

(** The calls on the [Contact] model. *)
Inductive dbop : Type :=
  | Find (filter : value)              (* Contact.find(filter).lean().exec() *)
  | FindOne (filter : value)           (* Contact.findOne(filter).exec() *)
  | Save (fields : value)              (* new Contact(fields).save() *)
  | FindOneAndRemove (filter : value)  (* Contact.findOneAndRemove(filter).exec() *)
  | FindOneAndUpdate (filter update options : value).
                                       (* Contact.findOneAndUpdate(...).exec() *)

(** What the driver answers to a call: it resolves with a result, or
    rejects with a new error object (given by its properties). *)
Inductive answer : Type :=
  | Resolves (v : value)
  | Rejects (e : gmap string value).

Inductive event : Type :=
  | EvDb (op : dbop) (s : settled loc)  (* a driver call and how it settled *)
  | EvLog (err : loc)                   (* console.log(err) *)
  | EvSend (code : Z) (payload : value) (* res.json(payload), with res's status *)
  | EvNext (err : loc).                 (* next(err) *)

Record world := World {
  heap : list (gmap string value);
  statusCode : Z;
  trace : list event
}.

(** The world a handler starts in: any heap, a response with Node's
    default status, nothing done yet. *)
Definition start (h : list (gmap string value)) : world :=
  World h 200 [].

Definition emit (ev : event) : M world unit :=
  λ w, (tt, World (heap w) (statusCode w) (trace w ++ [ev])).

(** Allocation of a new object. *)
Definition alloc (o : gmap string value) : M world loc :=
  λ w, (length (heap w), World (heap w ++ [o]) (statusCode w) (trace w)).

(** [o.k = v] on a heap object. *)
Definition set_prop (l : loc) (k : string) (v : value) : M world unit :=
  λ w, (tt, World (alter (insert k v) l (heap w)) (statusCode w) (trace w)).

(** [new Error(msg)] *)
Definition new_Error (msg : string) : M world loc :=
  alloc {[ "message" := VStr msg ]}.

Definition console_log (err : loc) : M world unit := emit (EvLog err).

(** [res.status(c)] and [res.json(v)] *)
Definition res_status (c : Z) : M world unit :=
  λ w, (tt, World (heap w) c (trace w)).
Definition res_json (v : value) : M world unit :=
  λ w, (tt, World (heap w) (statusCode w) (trace w ++ [EvSend (statusCode w) v])).

Definition next (err : loc) : M world unit := emit (EvNext err).

Definition handler : Type := request → M world unit.

Section Controller.

(** The [Contact] model of [../models/contact]. *)
Variable Contact : dbop → answer.

(** A call on the model: the promise it returns, settled. *)
Definition exec (op : dbop) : M world (settled loc) :=
  match Contact op with
  | Resolves v => emit (EvDb op (Fulfilled v)) ;; ret (Fulfilled v)
  | Rejects e =>
      err <- alloc e ;;
      emit (EvDb op (Rejected err)) ;;
      ret (Rejected err)
  end.

Definition getContacts : handler := λ req,
  void (catch_
    (then_ (exec (Find (literal [])))
       (λ results, res_status 200 ;; res_json results))
    (λ err,
       console_log err ;;
       set_prop err "status" (VNum 503) ;;
       next err)).

Definition getContact : handler := λ req,
  let id := prop (params req) "id" in
  void (catch_
    (then_ (exec (FindOne (literal [("id", id)])))
       (λ result,
          if truthy result then
            res_status 200 ;; res_json result
          else
            err <- new_Error "Contact could not be found." ;;
            console_log err ;;
            set_prop err "status" (VNum 404) ;;
            next err))
    (λ err,
       console_log err ;;
       set_prop err "status" (VNum 503) ;;
       next err)).

Definition addContact : handler := λ req,
  let newContact :=
    literal [("name", prop (body req) "name");
             ("email", prop (body req) "email");
             ("number", prop (body req) "number")] in
  void (catch_
    (then_ (exec (Save newContact))
       (λ result, res_status 201 ;; res_json result))
    (λ err,
       console_log err ;;
       set_prop err "status" (VNum 503) ;;
       next err)).

Definition deleteContact : handler := λ req,
  let id := prop (params req) "id" in
  void (catch_
    (then_ (exec (FindOneAndRemove (literal [("id", id)])))
       (λ result, res_status 200 ;; res_json result))
    (λ err,
       console_log err ;;
       set_prop err "status" (VNum 404) ;;
       next err)).

Definition editContact : handler := λ req,
  let id := prop (params req) "id" in
  void (catch_
    (then_ (exec (FindOneAndUpdate (literal [("id", id)])
                    (VObj (body req))
                    (literal [("new", VBool true)])))
       (λ result, res_status 200 ;; res_json result))
    (λ err,
       console_log err ;;
       set_prop err "status" (VNum 404) ;;
       next err)).

(** The router: routes in the order they are registered, each with
    the callbacks given for it. [Mw] is the type of the middleware the
    controller is handed. *)
Inductive method : Type := GET | POST | DELETE | PUT.

Inductive callback (Mw : Type) : Type :=
  | Middleware (m : Mw)
  | Handler (h : handler).
Arguments Middleware {Mw} m.
Arguments Handler {Mw} h.

Record route (Mw : Type) := Route {
  verb : method;
  path : string;
  stack : list (callback Mw)
}.
Arguments Route {Mw} verb path stack.
Arguments verb {Mw} r.
Arguments path {Mw} r.
Arguments stack {Mw} r.

Definition register {Mw} (v : method) (p : string) (cbs : list (callback Mw))
  : M (list (route Mw)) unit :=
  λ router, (tt, router ++ [Route v p cbs]).

Definition router_get {Mw} := @register Mw GET.
Definition router_post {Mw} := @register Mw POST.
Definition router_delete {Mw} := @register Mw DELETE.
Definition router_put {Mw} := @register Mw PUT.

(** [module.exports = function(protected) { ... return router; }] *)
Definition ContactController {Mw} (protected : Mw) : list (route Mw) :=
  let router := [] in
  snd ((router_get "/" [Middleware protected; Handler getContacts] ;;
        router_get "/:id" [Middleware protected; Handler getContact] ;;
        router_post "/" [Middleware protected; Handler addContact] ;;
        router_delete "/:id" [Middleware protected; Handler deleteContact] ;;
        router_put "/:id" [Middleware protected; Handler editContact])
       router).

End Controller.

Arguments Middleware {Mw} m.
Arguments Handler {Mw} h.
Arguments Route {Mw} verb path stack.
Arguments verb {Mw} r.
Arguments path {Mw} r.
Arguments stack {Mw} r.

(** What the client of a request observes of a run: the responses sent,
    and the errors handed to [next], each with the [status] property the
    error object carries. *)
Inductive reply : Type :=
  | Sent (code : Z) (payload : value)
  | Forwarded (err : loc) (status : option value).

Definition reply_of (h : list (gmap string value)) (ev : event) : list reply :=
  match ev with
  | EvSend c v => [Sent c v]
  | EvNext l => [Forwarded l (h !! l ≫= λ o, o !! "status")]
  | EvDb _ _ | EvLog _ => []
  end.

Definition replies (w : world) : list reply :=
  flat_map (reply_of (heap w)) (trace w).

(** The status code of a reply, when it has one. *)
Definition status_of (r : reply) : option value :=
  match r with
  | Sent c _ => Some (VNum c)
  | Forwarded _ s => s
  end.

(** The driver calls of a run. *)
Definition db_calls (w : world) : list dbop :=
  flat_map (λ ev, match ev with EvDb op _ => [op] | _ => [] end) (trace w).

(** A handler run on a request, from a fresh response. *)
Definition run (Contact : dbop → answer) (f : (dbop → answer) → handler)
    (req : request) (h : list (gmap string value)) : world :=
  snd (f Contact req (start h)).

(** The five handlers. *)
Definition handlers : list ((dbop → answer) → handler) :=
  [getContacts; getContact; addContact; deleteContact; editContact].

End Server.

(** ** The client router *)

Module Client.

(** [$state], as far as the guards use it: the transitions asked for
    with [$state.go], in order. *)
Definition nav := list string.

Definition go (target : string) : M nav unit :=
  λ w, (tt, w ++ [target]).

(** The session service, as far as the guards use it: how the promise of
    [getCurrentUser()] settles. *)
Record session_service := SessionService {
  getCurrentUser : settled value
}.

(** A promise that settles as [s]. *)
Definition promise {W E} (s : settled E) : M W (settled E) := ret s.

(** A function of a state's [resolve] block; the injector hands it the
    session service (and [$state], the world). *)
Definition injectable : Type := session_service → M nav value.

Definition alreadyLoggedIn : injectable := λ sessionService,
  then_ (promise (getCurrentUser sessionService))
    (λ response,
       if truthy response then go "dashboard" else ret tt) ;;
  ret VUndefined.

Definition notLoggedIn : injectable := λ sessionService,
  then_ (promise (getCurrentUser sessionService))
    (λ response,
       if negb (truthy response) then go "login" else ret tt) ;;
  ret VUndefined.

Record state_decl := StateDecl {
  name : string;
  url : string;
  templateUrl : string;
  controller : option string;
  controllerAs : option string;
  resolve : list (string * injectable)
}.

Definition loginState : state_decl := {|
  name := "login";
  url := "/login";
  templateUrl := "/features/login/login.html";
  controller := None;
  controllerAs := None;
  resolve := [("$title", λ _, ret (VStr "Login"));
              ("alreadyLoggedIn", alreadyLoggedIn)]
|}.

Definition dashboardState : state_decl := {|
  name := "dashboard";
  url := "/";
  templateUrl := "/features/dashboard/dashboard.html";
  controller := Some "DashboardController";
  controllerAs := Some "dashboardCtrl";
  resolve := [("$title", λ _, ret (VStr "Dashboard"));
              ("notLoggedIn", notLoggedIn)]
|}.

Definition contactsIndexState : state_decl := {|
  name := "contacts";
  url := "/contacts";
  templateUrl := "/features/contact/contact.index.html";
  controller := Some "ContactController";
  controllerAs := Some "contactCtrl";
  resolve := [("$title", λ _, ret (VStr "Contacts"));
              ("notLoggedIn", notLoggedIn)]
|}.

Definition contactsNewState : state_decl := {|
  name := "contacts-new";
  url := "/contacts/new";
  templateUrl := "/features/contact/contact.update.html";
  controller := Some "ContactController";
  controllerAs := Some "contactCtrl";
  resolve := [("$title", λ _, ret (VStr "New Contact"));
              ("notLoggedIn", notLoggedIn)]
|}.

Definition contactsEditState : state_decl := {|
  name := "contacts-edit";
  url := "/contacts/:id";
  templateUrl := "/features/contact/contact.update.html";
  controller := Some "ContactController";
  controllerAs := Some "contactCtrl";
  resolve := [("$title", λ _, ret (VStr "Edit Contact"));
              ("notLoggedIn", notLoggedIn)]
|}.

Definition unauthorizedState : state_decl := {|
  name := "unauthorized";
  url := "/401";
  templateUrl := "/features/error/401.html";
  controller := None;
  controllerAs := None;
  resolve := [("$title", λ _, ret (VStr "401 - Unauthorized"))]
|}.

Definition notFoundState : state_decl := {|
  name := "notFound";
  url := "*path";
  templateUrl := "/features/error/404.html";
  controller := None;
  controllerAs := None;
  resolve := [("$title", λ _, ret (VStr "404 - Not Found"))]
|}.

(** [$stateProvider] and [$locationProvider], as far as [config] writes
    to them. *)
Record providers := Providers {
  html5 : bool;
  states : list state_decl
}.

Definition html5Mode (b : bool) : M providers unit :=
  λ p, (tt, Providers b (states p)).

Definition state (s : state_decl) : M providers unit :=
  λ p, (tt, Providers (html5 p) (states p ++ [s])).

Definition config : M providers unit :=
  html5Mode true ;;
  state loginState ;;
  state dashboardState ;;
  state contactsIndexState ;;
  state contactsNewState ;;
  state contactsEditState ;;
  state unauthorizedState ;;
  state notFoundState.

(** The providers before the application is configured, and after. *)
Definition unconfigured : providers := Providers false [].
Definition configured : providers := snd (config unconfigured).

(** Entering a state runs the functions of its [resolve] block, in
    order; [entering] is the list of transitions they ask for. *)
Fixpoint resolve_all (fs : list (string * injectable))
    (sessionService : session_service) : M nav unit :=
  match fs with
  | [] => ret tt
  | (_, f) :: fs' => f sessionService ;; resolve_all fs' sessionService
  end.

Definition entering (s : state_decl) (sessionService : session_service)
  : list string :=
  snd (resolve_all (resolve s) sessionService []).

(** *** URL patterns

    The [url] of a state is a pattern of the router library: a [:name]
    stands for one path segment (any characters but a slash), a [*name]
    for any rest of the path, every other character for itself. This is
    the part of the library's pattern syntax that the seven states use;
    in them a name runs to the next slash or to the end of the pattern. *)
Inductive token : Type :=
  | Lit (c : ascii)
  | Param
  | Splat.

(** [scan in_name p]: the tokens of [p]; inside a parameter name the
    characters up to the next slash belong to the name. *)
Fixpoint scan (in_name : bool) (p : string) : list token :=
  match p with
  | EmptyString => []
  | String c p' =>
      if in_name then
        if Ascii.eqb c "/"%char then Lit c :: scan false p' else scan true p'
      else if Ascii.eqb c ":"%char then Param :: scan true p'
      else if Ascii.eqb c "*"%char then Splat :: scan true p'
      else Lit c :: scan false p'
  end.

(** The path from its first slash on. *)
Fixpoint rest_of_segment (s : string) : string :=
  match s with
  | EmptyString => EmptyString
  | String c s' => if Ascii.eqb c "/"%char then s else rest_of_segment s'
  end.

Fixpoint some_suffix (f : string → bool) (s : string) : bool :=
  f s || match s with
         | EmptyString => false
         | String _ s' => some_suffix f s'
         end.

Fixpoint matches_tokens (p : list token) (s : string) : bool :=
  match p with
  | [] => String.eqb s ""
  | Lit c :: p' =>
      match s with
      | String c' s' => Ascii.eqb c c' && matches_tokens p' s'
      | EmptyString => false
      end
  | Param :: p' => matches_tokens p' (rest_of_segment s)
  | Splat :: p' => some_suffix (matches_tokens p') s
  end.

Definition matches (pattern path : string) : bool :=
  matches_tokens (scan false pattern) path.

End Client.

(** ** Sample inputs *)

Module Samples.
Import Server.

(** A store with no contact in it: every lookup finds nothing. *)
Definition emptyStore : dbop → answer := λ _, Resolves VNull.

(** A store that is down: every call is rejected. *)
Definition downError : gmap string value :=
  {[ "message" := VStr "connection refused" ]}.
Definition downStore : dbop → answer := λ _, Rejects downError.

Definition ann : value :=
  literal [("name", VStr "Ann"); ("email", VStr "ann@example.org");
           ("number", VStr "555-0100")].

(** A store that answers every call with the contact [ann]. *)
Definition annStore : dbop → answer := λ _, Resolves ann.

Definition annRequest : request :=
  Request {[ "id" := VStr "7" ]}
          {[ "name" := VStr "Ann"; "email" := VStr "ann@example.org";
             "number" := VStr "555-0100" ]}.

(** The same request with one more field in the body. *)
Definition annRequestExtra : request :=
  Request {[ "id" := VStr "7" ]}
          {[ "name" := VStr "Ann"; "email" := VStr "ann@example.org";
             "number" := VStr "555-0100"; "admin" := VBool true ]}.

(** A store that refuses what it is given, with an error that has a
    status of its own. *)
Definition validationError : gmap string value :=
  {[ "name" := VStr "ValidationError"; "status" := VNum 400 ]}.
Definition strictStore : dbop → answer := λ _, Rejects validationError.

Definition loggedIn : Client.session_service :=
  Client.SessionService (Fulfilled (literal [("name", VStr "root")])).
Definition loggedOut : Client.session_service :=
  Client.SessionService (Fulfilled VNull).
Definition sessionDown : Client.session_service :=
  Client.SessionService (Rejected (VStr "unreachable")).

End Samples.

(** ** Vocabulary of the statements *)

Module Spec.
Import Server.

(** The filter [{id: req.params.id}]. *)
Definition by_id (req : request) : value :=
  literal [("id", prop (params req) "id")].

(** The object [{name: req.body.name, email: req.body.email,
    number: req.body.number}]. *)
Definition contact_fields (req : request) : value :=
  literal [("name", prop (body req) "name");
           ("email", prop (body req) "email");
           ("number", prop (body req) "number")].

(** The call of [editContact]:
    [findOneAndUpdate({id: id}, req.body, {new: true})]. *)
Definition update_call (req : request) : dbop :=
  FindOneAndUpdate (by_id req) (VObj (body req)) (literal [("new", VBool true)]).

(** The world after a run from heap [h] in which the call [op] was
    resolved with [v] and [v] was sent with status [c]. *)
Definition answered (h : list (gmap string value)) (op : dbop) (c : Z)
    (v : value) : world :=
  World h c [EvDb op (Fulfilled v); EvSend c v].

(** The world after a run from heap [h] in which the call [op] was
    rejected with a new error object [e] (at [length h]), and that object
    was logged, given the status [c] and handed to [next]. *)
Definition forwarded (h : list (gmap string value)) (op : dbop)
    (e : gmap string value) (c : Z) : world :=
  World (h ++ [<["status" := VNum c]> e]) 200
        [EvDb op (Rejected (length h)); EvLog (length h); EvNext (length h)].

(** The world after a run from heap [h] in which the call [op] was
    resolved with [v], and a new error object with status 404 was made,
    logged and handed to [next]. *)
Definition not_found (h : list (gmap string value)) (op : dbop)
    (v : value) : world :=
  World (h ++ [<["status" := VNum 404]>
                 {[ "message" := VStr "Contact could not be found." ]}]) 200
        [EvDb op (Fulfilled v); EvLog (length h); EvNext (length h)].

(** [passes_error_on w h op e c]: in the run [w] from heap [h] the call
    [op] was rejected with the error object [e], allocated at [length h];
    that very object was logged and handed to [next], nothing else was
    done (no second call, no response), and the object is [e] with the
    [status] property set to [c]. *)
Definition passes_error_on (w : world) (h : list (gmap string value))
    (op : dbop) (e : gmap string value) (c : Z) : Prop :=
  let err := length h in
  trace w = [EvDb op (Rejected err); EvLog err; EvNext err]
  ∧ heap w = h ++ [<["status" := VNum c]> e]
  ∧ replies w = [Forwarded err (Some (VNum c))]
  ∧ db_calls w = [op].

(** [calls_first w op]: the run [w] starts with the driver call [op], and
    makes no other driver call. *)
Definition calls_first (w : world) (op : dbop) : Prop :=
  (∃ s rest, trace w = EvDb op s :: rest) ∧ db_calls w = [op].

(** The status codes the specification lists. *)
Definition listed_codes : list Z := [200; 201; 404; 503]%Z.

End Spec.

(** ** The callers: a route of the router, the transitions of the client *)

Module Express.
Import Server.

(** A middleware, as the router runs it: what it does to the world, and
    whether it hands the request on (calls [next()]). *)
Definition middleware : Type := request → M world bool.

(** The callbacks of a route run in order. A middleware that does not
    hand the request on ends the run. The handlers of this controller
    never hand a request on ([next] is only called with an error), so a
    handler ends the run too. *)
Fixpoint run_stack (cbs : list (callback middleware)) (req : request)
    : M world unit :=
  match cbs with
  | [] => ret tt
  | Middleware m :: cbs' =>
      passed <- m req ;;
      if passed then run_stack cbs' req else ret tt
  | Handler f :: _ => f req
  end.


(** A middleware that lets every request through, and one that answers
    401 itself and lets none through. *)
Definition allow : middleware := λ req, ret true.
Definition deny : middleware := λ req,
  res_status 401 ;;
  res_json (literal [("message", VStr "Unauthorized")]) ;;
  ret false.

End Express.

Module Navigation.
Import Client.

(** [$state.go(target)] looks the state up by its name. *)
Definition find_state (p : providers) (target : string) : option state_decl :=
  List.find (λ s, String.eqb (name s) target) (states p).

(** The states entered, by name, when [s] is entered and the transitions
    its [resolve] block asks for are followed, [fuel] times at most (a
    later transition replaces an earlier one; a transition to an unknown
    name fails and ends the walk). *)
Fixpoint navigate (fuel : nat) (p : providers)
    (sessionService : session_service) (s : state_decl) : list string :=
  name s ::
  match fuel with
  | O => []
  | S fuel' =>
      match last (entering s sessionService) with
      | None => []
      | Some target =>
          match find_state p target with
          | Some s' => navigate fuel' p sessionService s'
          | None => []
          end
      end
  end.

(** The state of a path: the first registered state whose pattern
    matches it. *)
Definition state_for (p : providers) (path : string) : option state_decl :=
  List.find (λ s, matches (url s) path) (states p).

(** A string with no slash in it. *)
Definition one_segment (s : string) : Prop :=
  ¬ In "/"%char (list_ascii_of_string s).

End Navigation.

(** ** Properties of the contact controller *)

Module ServerProps.
Import Server Spec Samples.

Section Runs.

Variable Contact : dbop → answer.

(** A promise chain [exec(op).then(f).catch(g)] whose call is resolved. *)
Lemma chain_resolved op f g h v :
  Contact op = Resolves v →
  snd (void (catch_ (then_ (exec Contact op) f) g) (start h))
  = snd (f v (World h 200 [EvDb op (Fulfilled v)])).
Proof.
  intros Hop. unfold void, catch_, then_, exec, bind. rewrite Hop.
  simpl. by destruct (f v _).
Qed.

(** The same chain when the call is rejected. *)
Lemma chain_rejected op f g h e :
  Contact op = Rejects e →
  snd (void (catch_ (then_ (exec Contact op) f) g) (start h))
  = snd (g (length h) (World (h ++ [e]) 200 [EvDb op (Rejected (length h))])).
Proof.
  intros Hop. unfold void, catch_, then_, exec, bind. rewrite Hop.
  simpl. by destruct (g _ _).
Qed.

(** Writing a property of the object allocated last. *)
Lemma alter_last (f : gmap string value → gmap string value) h e :
  alter f (length h) (h ++ [e]) = h ++ [f e].
Proof.
  replace (length h) with (length h + 0) by lia. by rewrite alter_app_r.
Qed.

(** The error branch of every handler. *)
Lemma error_branch c h e evs :
  snd ((console_log (length h) ;;
        set_prop (length h) "status" (VNum c) ;;
        next (length h)) (World (h ++ [e]) 200 evs))
  = World (h ++ [<["status" := VNum c]> e]) 200
          (evs ++ [EvLog (length h); EvNext (length h)]).
Proof.
  unfold bind, console_log, set_prop, next, emit. simpl.
  by rewrite alter_last, <- app_assoc.
Qed.

(** *** The runs of the five handlers, by the answer of the driver *)

Lemma getContacts_resolved req h v :
  Contact (Find (literal [])) = Resolves v →
  run Contact getContacts req h = answered h (Find (literal [])) 200 v.
Proof. intros Hop. unfold run, getContacts. by rewrite (chain_resolved _ _ _ _ _ Hop). Qed.

Lemma getContacts_rejected req h e :
  Contact (Find (literal [])) = Rejects e →
  run Contact getContacts req h = forwarded h (Find (literal [])) e 503.
Proof.
  intros Hop. unfold run, getContacts.
  by rewrite (chain_rejected _ _ _ _ _ Hop), error_branch.
Qed.

Lemma getContact_found req h v :
  Contact (FindOne (by_id req)) = Resolves v → truthy v = true →
  run Contact getContact req h = answered h (FindOne (by_id req)) 200 v.
Proof.
  intros Hop Hv. unfold run, getContact. cbv zeta.
  rewrite (chain_resolved _ _ _ _ _ Hop). by rewrite Hv.
Qed.

Lemma getContact_missing req h v :
  Contact (FindOne (by_id req)) = Resolves v → truthy v = false →
  run Contact getContact req h = not_found h (FindOne (by_id req)) v.
Proof.
  intros Hop Hv. unfold run, getContact. cbv zeta.
  rewrite (chain_resolved _ _ _ _ _ Hop). rewrite Hv.
  unfold bind, new_Error, alloc, console_log, set_prop, next, emit. simpl.
  by rewrite alter_last.
Qed.

Lemma getContact_rejected req h e :
  Contact (FindOne (by_id req)) = Rejects e →
  run Contact getContact req h = forwarded h (FindOne (by_id req)) e 503.
Proof.
  intros Hop. unfold run, getContact. cbv zeta.
  by rewrite (chain_rejected _ _ _ _ _ Hop), error_branch.
Qed.

Lemma addContact_resolved req h v :
  Contact (Save (contact_fields req)) = Resolves v →
  run Contact addContact req h = answered h (Save (contact_fields req)) 201 v.
Proof.
  intros Hop. unfold run, addContact. cbv zeta.
  by rewrite (chain_resolved _ _ _ _ _ Hop).
Qed.

Lemma addContact_rejected req h e :
  Contact (Save (contact_fields req)) = Rejects e →
  run Contact addContact req h = forwarded h (Save (contact_fields req)) e 503.
Proof.
  intros Hop. unfold run, addContact. cbv zeta.
  by rewrite (chain_rejected _ _ _ _ _ Hop), error_branch.
Qed.

Lemma deleteContact_resolved req h v :
  Contact (FindOneAndRemove (by_id req)) = Resolves v →
  run Contact deleteContact req h
  = answered h (FindOneAndRemove (by_id req)) 200 v.
Proof.
  intros Hop. unfold run, deleteContact. cbv zeta.
  by rewrite (chain_resolved _ _ _ _ _ Hop).
Qed.

Lemma deleteContact_rejected req h e :
  Contact (FindOneAndRemove (by_id req)) = Rejects e →
  run Contact deleteContact req h
  = forwarded h (FindOneAndRemove (by_id req)) e 404.
Proof.
  intros Hop. unfold run, deleteContact. cbv zeta.
  by rewrite (chain_rejected _ _ _ _ _ Hop), error_branch.
Qed.

Lemma editContact_resolved req h v :
  Contact (update_call req) = Resolves v →
  run Contact editContact req h = answered h (update_call req) 200 v.
Proof.
  intros Hop. unfold run, editContact. cbv zeta.
  by rewrite (chain_resolved _ _ _ _ _ Hop).
Qed.

Lemma editContact_rejected req h e :
  Contact (update_call req) = Rejects e →
  run Contact editContact req h = forwarded h (update_call req) e 404.
Proof.
  intros Hop. unfold run, editContact. cbv zeta.
  by rewrite (chain_rejected _ _ _ _ _ Hop), error_branch.
Qed.

End Runs.

(** *** What is observed of the three kinds of run *)

Lemma replies_answered h op c v : replies (answered h op c v) = [Sent c v].
Proof. reflexivity. Qed.

Lemma replies_forwarded h op e c :
  replies (forwarded h op e c) = [Forwarded (length h) (Some (VNum c))].
Proof.
  unfold replies, forwarded. simpl.
  by rewrite (list_lookup_middle h [] _ (length h) eq_refl); simpl;
    rewrite lookup_insert_eq.
Qed.

Lemma replies_not_found h op v :
  replies (not_found h op v) = [Forwarded (length h) (Some (VNum 404))].
Proof.
  unfold replies, not_found. simpl.
  by rewrite (list_lookup_middle h [] _ (length h) eq_refl); simpl;
    rewrite lookup_insert_eq.
Qed.

Lemma db_calls_answered h op c v : db_calls (answered h op c v) = [op].
Proof. reflexivity. Qed.

Lemma db_calls_forwarded h op e c : db_calls (forwarded h op e c) = [op].
Proof. reflexivity. Qed.

Lemma db_calls_not_found h op v : db_calls (not_found h op v) = [op].
Proof. reflexivity. Qed.

Create Rewrite HintDb runs.
#[export] Hint Rewrite
  replies_answered replies_forwarded replies_not_found
  db_calls_answered db_calls_forwarded db_calls_not_found : runs.

(** Case analysis on the answer to [op], rewriting the run with the
    lemmas above. *)
Ltac by_answer Contact op :=
  let a := fresh "a" in
  let Ha := fresh "Ha" in
  destruct (Contact op) as [a|a] eqn:Ha.

(** Splits a conjunction of five parts, one for each handler. *)
Ltac five_parts := split; [|split; [|split; [|split]]].

(** Closes a goal [∃ r c, replies w = [r] ∧ status_of r = Some (VNum c) ∧
    In c listed_codes] once [w] is one of the three kinds of run. *)
Ltac one_reply :=
  autorewrite with runs; eexists _, _;
  split; [reflexivity | split; [reflexivity | simpl; tauto]].

(** C1: whatever the driver answers, a run of any of the five handlers
    ends in exactly one reply (a response, or an error handed to [next]),
    and the status code of that reply is 200, 201, 404 or 503. *)
Theorem status_codes (Contact : dbop → answer) (req : request)
    (h : list (gmap string value)) :
  Forall
    (λ f, ∃ r c, replies (run Contact f req h) = [r]
                 ∧ status_of r = Some (VNum c) ∧ In c listed_codes)
    handlers.
Proof.
  unfold handlers, listed_codes.
  repeat apply List.Forall_cons; try apply List.Forall_nil.
  - by_answer Contact (Find (literal [])).
    + rewrite (getContacts_resolved _ _ _ _ Ha). one_reply.
    + rewrite (getContacts_rejected _ _ _ _ Ha). one_reply.
  - by_answer Contact (FindOne (by_id req)).
    + destruct (truthy a) eqn:Ht.
      * rewrite (getContact_found _ _ _ _ Ha Ht). one_reply.
      * rewrite (getContact_missing _ _ _ _ Ha Ht). one_reply.
    + rewrite (getContact_rejected _ _ _ _ Ha). one_reply.
  - by_answer Contact (Save (contact_fields req)).
    + rewrite (addContact_resolved _ _ _ _ Ha). one_reply.
    + rewrite (addContact_rejected _ _ _ _ Ha). one_reply.
  - by_answer Contact (FindOneAndRemove (by_id req)).
    + rewrite (deleteContact_resolved _ _ _ _ Ha). one_reply.
    + rewrite (deleteContact_rejected _ _ _ _ Ha). one_reply.
  - by_answer Contact (update_call req).
    + rewrite (editContact_resolved _ _ _ _ Ha). one_reply.
    + rewrite (editContact_rejected _ _ _ _ Ha). one_reply.
Qed.

Lemma forwarded_passes h op e c : passes_error_on (forwarded h op e c) h op e c.
Proof.
  unfold passes_error_on. rewrite replies_forwarded, db_calls_forwarded.
  auto.
Qed.

(** C2: when the driver rejects the call of a handler with an error
    object, the handler logs that object, sets its [status] (503 in
    [getContacts], [getContact] and [addContact], 404 in [deleteContact]
    and [editContact]) and hands the same object to [next]; it makes no
    second driver call and sends no response. *)
Theorem rejections_forwarded (Contact : dbop → answer) (req : request)
    (h : list (gmap string value)) (e : gmap string value) :
  (Contact (Find (literal [])) = Rejects e →
   passes_error_on (run Contact getContacts req h) h (Find (literal [])) e 503)
  ∧ (Contact (FindOne (by_id req)) = Rejects e →
     passes_error_on (run Contact getContact req h) h (FindOne (by_id req)) e 503)
  ∧ (Contact (Save (contact_fields req)) = Rejects e →
     passes_error_on (run Contact addContact req h) h
       (Save (contact_fields req)) e 503)
  ∧ (Contact (FindOneAndRemove (by_id req)) = Rejects e →
     passes_error_on (run Contact deleteContact req h) h
       (FindOneAndRemove (by_id req)) e 404)
  ∧ (Contact (update_call req) = Rejects e →
     passes_error_on (run Contact editContact req h) h (update_call req) e 404).
Proof.
  five_parts; intros Hop.
  - rewrite (getContacts_rejected _ _ _ _ Hop). apply forwarded_passes.
  - rewrite (getContact_rejected _ _ _ _ Hop). apply forwarded_passes.
  - rewrite (addContact_rejected _ _ _ _ Hop). apply forwarded_passes.
  - rewrite (deleteContact_rejected _ _ _ _ Hop). apply forwarded_passes.
  - rewrite (editContact_rejected _ _ _ _ Hop). apply forwarded_passes.
Qed.

(** The five handlers on a store that is down. *)
Lemma rejections_forwarded_witness :
  passes_error_on (run downStore getContacts annRequest []) []
    (Find (literal [])) downError 503
  ∧ passes_error_on (run downStore getContact annRequest []) []
      (FindOne (by_id annRequest)) downError 503
  ∧ passes_error_on (run downStore addContact annRequest []) []
      (Save (contact_fields annRequest)) downError 503
  ∧ passes_error_on (run downStore deleteContact annRequest []) []
      (FindOneAndRemove (by_id annRequest)) downError 404
  ∧ passes_error_on (run downStore editContact annRequest []) []
      (update_call annRequest) downError 404.
Proof.
  destruct (rejections_forwarded downStore annRequest [] downError)
    as (H1 & H2 & H3 & H4 & H5).
  five_parts; [apply H1 | apply H2 | apply H3 | apply H4 | apply H5];
    reflexivity.
Defined.

(** C3: when the driver resolves the call of a handler with a result, the
    handler sends that result, as it is, as the JSON body of the response
    ([getContact] when the result is a document, that is, truthy). *)
Theorem results_passed_through (Contact : dbop → answer) (req : request)
    (h : list (gmap string value)) (v : value) :
  (Contact (Find (literal [])) = Resolves v →
   replies (run Contact getContacts req h) = [Sent 200 v])
  ∧ (Contact (FindOne (by_id req)) = Resolves v → truthy v = true →
     replies (run Contact getContact req h) = [Sent 200 v])
  ∧ (Contact (Save (contact_fields req)) = Resolves v →
     replies (run Contact addContact req h) = [Sent 201 v])
  ∧ (Contact (FindOneAndRemove (by_id req)) = Resolves v →
     replies (run Contact deleteContact req h) = [Sent 200 v])
  ∧ (Contact (update_call req) = Resolves v →
     replies (run Contact editContact req h) = [Sent 200 v]).
Proof.
  five_parts.
  - intros Hop. by rewrite (getContacts_resolved _ _ _ _ Hop).
  - intros Hop Hv. by rewrite (getContact_found _ _ _ _ Hop Hv).
  - intros Hop. by rewrite (addContact_resolved _ _ _ _ Hop).
  - intros Hop. by rewrite (deleteContact_resolved _ _ _ _ Hop).
  - intros Hop. by rewrite (editContact_resolved _ _ _ _ Hop).
Qed.

(** The five handlers on a store that answers every call with [ann]. *)
Lemma results_passed_through_witness :
  replies (run annStore getContacts annRequest []) = [Sent 200 ann]
  ∧ replies (run annStore getContact annRequest []) = [Sent 200 ann]
  ∧ replies (run annStore addContact annRequest []) = [Sent 201 ann]
  ∧ replies (run annStore deleteContact annRequest []) = [Sent 200 ann]
  ∧ replies (run annStore editContact annRequest []) = [Sent 200 ann].
Proof.
  destruct (results_passed_through annStore annRequest [] ann)
    as (H1 & H2 & H3 & H4 & H5).
  five_parts; [apply H1 | apply H2 | apply H3 | apply H4 | apply H5];
    reflexivity.
Defined.

Section Calls.

Variable Contact : dbop → answer.

(** *** The driver call of each handler *)

Lemma getContacts_calls req h :
  calls_first (run Contact getContacts req h) (Find (literal [])).
Proof.
  by_answer Contact (Find (literal [])).
  - rewrite (getContacts_resolved _ _ _ _ Ha). split; [eexists _, _|]; reflexivity.
  - rewrite (getContacts_rejected _ _ _ _ Ha). split; [eexists _, _|]; reflexivity.
Qed.

Lemma getContact_calls req h :
  calls_first (run Contact getContact req h) (FindOne (by_id req)).
Proof.
  by_answer Contact (FindOne (by_id req)).
  - destruct (truthy a) eqn:Ht.
    + rewrite (getContact_found _ _ _ _ Ha Ht). split; [eexists _, _|]; reflexivity.
    + rewrite (getContact_missing _ _ _ _ Ha Ht). split; [eexists _, _|]; reflexivity.
  - rewrite (getContact_rejected _ _ _ _ Ha). split; [eexists _, _|]; reflexivity.
Qed.

Lemma addContact_calls req h :
  calls_first (run Contact addContact req h) (Save (contact_fields req)).
Proof.
  by_answer Contact (Save (contact_fields req)).
  - rewrite (addContact_resolved _ _ _ _ Ha). split; [eexists _, _|]; reflexivity.
  - rewrite (addContact_rejected _ _ _ _ Ha). split; [eexists _, _|]; reflexivity.
Qed.

Lemma deleteContact_calls req h :
  calls_first (run Contact deleteContact req h) (FindOneAndRemove (by_id req)).
Proof.
  by_answer Contact (FindOneAndRemove (by_id req)).
  - rewrite (deleteContact_resolved _ _ _ _ Ha). split; [eexists _, _|]; reflexivity.
  - rewrite (deleteContact_rejected _ _ _ _ Ha). split; [eexists _, _|]; reflexivity.
Qed.

Lemma editContact_calls req h :
  calls_first (run Contact editContact req h) (update_call req).
Proof.
  by_answer Contact (update_call req).
  - rewrite (editContact_resolved _ _ _ _ Ha). split; [eexists _, _|]; reflexivity.
  - rewrite (editContact_rejected _ _ _ _ Ha). split; [eexists _, _|]; reflexivity.
Qed.

End Calls.

(** C4: on every request and whatever the driver answers, each handler
    starts with its driver call, built from the request as it is, and
    makes no other; no request is answered without the driver being
    asked. *)
Theorem driver_called_unconditionally (Contact : dbop → answer)
    (req : request) (h : list (gmap string value)) :
  calls_first (run Contact getContacts req h) (Find (literal []))
  ∧ calls_first (run Contact getContact req h) (FindOne (by_id req))
  ∧ calls_first (run Contact addContact req h) (Save (contact_fields req))
  ∧ calls_first (run Contact deleteContact req h)
      (FindOneAndRemove (by_id req))
  ∧ calls_first (run Contact editContact req h) (update_call req).
Proof.
  five_parts;
    auto using getContacts_calls, getContact_calls, addContact_calls,
      deleteContact_calls, editContact_calls.
Qed.

(** C8: when the driver finds no contact for the id and resolves with
    null, [deleteContact] and [editContact] answer 200 with the body null;
    they hand an error with status 404 to [next] exactly when the driver
    rejects the call. *)
Theorem absent_contact_answered_200 (Contact : dbop → answer) (req : request)
    (h : list (gmap string value)) :
  (Contact (FindOneAndRemove (by_id req)) = Resolves VNull →
   replies (run Contact deleteContact req h) = [Sent 200 VNull])
  ∧ (Contact (update_call req) = Resolves VNull →
     replies (run Contact editContact req h) = [Sent 200 VNull])
  ∧ ((∃ err, replies (run Contact deleteContact req h)
             = [Forwarded err (Some (VNum 404))])
     ↔ ∃ e, Contact (FindOneAndRemove (by_id req)) = Rejects e)
  ∧ ((∃ err, replies (run Contact editContact req h)
             = [Forwarded err (Some (VNum 404))])
     ↔ ∃ e, Contact (update_call req) = Rejects e).
Proof.
  split; [|split; [|split]].
  - intros Hop. by rewrite (deleteContact_resolved _ _ _ _ Hop).
  - intros Hop. by rewrite (editContact_resolved _ _ _ _ Hop).
  - by_answer Contact (FindOneAndRemove (by_id req)).
    + rewrite (deleteContact_resolved _ _ _ _ Ha), replies_answered.
      split; [intros [err Herr]|intros [e He]]; discriminate.
    + rewrite (deleteContact_rejected _ _ _ _ Ha), replies_forwarded.
      split; eauto.
  - by_answer Contact (update_call req).
    + rewrite (editContact_resolved _ _ _ _ Ha), replies_answered.
      split; [intros [err Herr]|intros [e He]]; discriminate.
    + rewrite (editContact_rejected _ _ _ _ Ha), replies_forwarded.
      split; eauto.
Qed.

(** Deleting and editing in a store with no contact in it. *)
Lemma absent_contact_answered_200_witness :
  replies (run emptyStore deleteContact annRequest []) = [Sent 200 VNull]
  ∧ replies (run emptyStore editContact annRequest []) = [Sent 200 VNull].
Proof.
  destruct (absent_contact_answered_200 emptyStore annRequest [])
    as (H1 & H2 & _).
  split; [apply H1 | apply H2]; reflexivity.
Defined.

(** C9: [getContact] hands a new error with status 404 to [next] exactly
    when the lookup is resolved with nothing (a falsy result, as null is),
    hands the error of the driver with status 503 to [next] exactly when
    the lookup is rejected, and answers 200 with the result exactly when
    the lookup is resolved with a document (a truthy result, as every
    object is). *)
Theorem getContact_outcomes (Contact : dbop → answer) (req : request)
    (h : list (gmap string value)) :
  let op := FindOne (by_id req) in
  let w := run Contact getContact req h in
  ((∃ err, replies w = [Forwarded err (Some (VNum 404))])
   ↔ ∃ v, Contact op = Resolves v ∧ truthy v = false)
  ∧ ((∃ err, replies w = [Forwarded err (Some (VNum 503))]
             ∧ In (EvDb op (Rejected err)) (trace w))
     ↔ ∃ e, Contact op = Rejects e)
  ∧ (∀ v, replies w = [Sent 200 v]
          ↔ Contact op = Resolves v ∧ truthy v = true)
  ∧ truthy VNull = false
  ∧ (∀ o, truthy (VObj o) = true).
Proof.
  intros op w. subst op w.
  by_answer Contact (FindOne (by_id req)); [destruct (truthy a) eqn:Ht|].
  - rewrite (getContact_found _ _ _ _ Ha Ht), replies_answered.
    split; [|split; [|split; [|by split]]].
    + split; [intros [err Herr]; discriminate|].
      intros (v & Hv & Hf). congruence.
    + split; [intros (err & Herr & _)|intros [e He]]; discriminate.
    + intros v. split; [intros Hv; split|intros [Hv _]]; congruence.
  - rewrite (getContact_missing _ _ _ _ Ha Ht), replies_not_found.
    split; [|split; [|split; [|by split]]].
    + split; eauto.
    + split; [intros (err & Herr & _)|intros [e He]]; discriminate.
    + intros v. split; [discriminate|intros [Hv Hv']; congruence].
  - rewrite (getContact_rejected _ _ _ _ Ha), replies_forwarded.
    split; [|split; [|split; [|by split]]].
    + split; [intros [err Herr]|intros (v & Hv & _)]; discriminate.
    + split; [eauto|]. intros _. exists (length h). simpl. auto.
    + intros v. split; [|intros [Hv _]]; discriminate.
Qed.

(** C10: the contact that [addContact] saves is made of the [name],
    [email] and [number] of the request body and of nothing else: two
    requests whose bodies agree on these three properties lead to the same
    call of the driver and to the same run (the same saved document, the
    same reply). *)
Theorem addContact_reads_three_fields (Contact : dbop → answer)
    (req1 req2 : request) (h : list (gmap string value)) :
  prop (body req1) "name" = prop (body req2) "name" →
  prop (body req1) "email" = prop (body req2) "email" →
  prop (body req1) "number" = prop (body req2) "number" →
  db_calls (run Contact addContact req1 h) = [Save (contact_fields req1)]
  ∧ db_calls (run Contact addContact req2 h) = [Save (contact_fields req1)]
  ∧ run Contact addContact req1 h = run Contact addContact req2 h.
Proof.
  intros Hname Hemail Hnumber.
  assert (contact_fields req1 = contact_fields req2) as Hfields.
  { unfold contact_fields. by rewrite Hname, Hemail, Hnumber. }
  split; [apply addContact_calls|].
  split; [rewrite Hfields; apply addContact_calls|].
  unfold run, addContact. cbv zeta. by rewrite Hname, Hemail, Hnumber.
Qed.

(** Two requests that differ in the [admin] property of the body only. *)
Lemma addContact_reads_three_fields_witness :
  body annRequest !! "admin" ≠ body annRequestExtra !! "admin"
  ∧ run annStore addContact annRequest []
    = run annStore addContact annRequestExtra [].
Proof.
  split; [discriminate|].
  apply (addContact_reads_three_fields annStore annRequest annRequestExtra []);
    reflexivity.
Defined.

(** *** The router *)

(** Two handlers that make different driver calls on some request are
    different functions. *)
Lemma handlers_differ (f g : handler) req h op1 op2 :
  calls_first (snd (f req (start h))) op1 →
  calls_first (snd (g req (start h))) op2 →
  op1 ≠ op2 → f ≠ g.
Proof. intros [_ H1] [_ H2] Hne Heq. subst g. congruence. Qed.

Ltac differ :=
  eapply (handlers_differ _ _ (Request ∅ ∅) []);
  [ first [ apply getContacts_calls | apply getContact_calls
          | apply addContact_calls | apply deleteContact_calls
          | apply editContact_calls ] ..
  | discriminate ].

(** C6: the controller registers five routes, in this order: GET /,
    GET /:id, POST /, DELETE /:id and PUT /:id. The callbacks of each
    route are the [protected] middleware followed by one handler, and the
    five handlers are five different functions. *)
Theorem five_guarded_routes (Contact : dbop → answer) (Mw : Type)
    (protected : Mw) :
  let router := ContactController Contact protected in
  map (λ r, (verb r, path r)) router
  = [(GET, "/"); (GET, "/:id"); (POST, "/"); (DELETE, "/:id"); (PUT, "/:id")]
  ∧ map stack router
    = map (λ f, [Middleware protected; Handler (f Contact)]) handlers
  ∧ NoDup (map (λ f, f Contact) handlers).
Proof.
  split; [reflexivity|]. split; [reflexivity|]. simpl.
  rewrite !NoDup_cons, !not_elem_of_cons.
  repeat split; try differ; try apply not_elem_of_nil. apply NoDup_nil_2.
Qed.

End ServerProps.

(** ** Properties of the client router *)

Module ClientProps.
Import Client Samples.

(** *** The two guards *)

Lemma alreadyLoggedIn_goes sessionService w :
  snd (alreadyLoggedIn sessionService w)
  = match getCurrentUser sessionService with
    | Fulfilled user => if truthy user then w ++ ["dashboard"] else w
    | Rejected _ => w
    end.
Proof.
  unfold alreadyLoggedIn, then_, promise, bind, ret, go.
  destruct (getCurrentUser sessionService) as [user|reason]; [|done].
  by destruct (truthy user).
Qed.

Lemma notLoggedIn_goes sessionService w :
  snd (notLoggedIn sessionService w)
  = match getCurrentUser sessionService with
    | Fulfilled user => if truthy user then w else w ++ ["login"]
    | Rejected _ => w
    end.
Proof.
  unfold notLoggedIn, then_, promise, bind, ret, go.
  destruct (getCurrentUser sessionService) as [user|reason]; [|done].
  by destruct (truthy user).
Qed.

(** A [resolve] block made of a title and one guard asks for the
    transitions of the guard. *)
Lemma entering_guarded s title label (guard : injectable) sessionService :
  resolve s = [("$title", λ _, ret (VStr title)); (label, guard)] →
  entering s sessionService = snd (guard sessionService []).
Proof.
  intros Hs. unfold entering. rewrite Hs. simpl. unfold bind, ret.
  by destruct (guard sessionService []).
Qed.

Lemma entering_login sessionService :
  entering loginState sessionService
  = match getCurrentUser sessionService with
    | Fulfilled user => if truthy user then ["dashboard"] else []
    | Rejected _ => []
    end.
Proof.
  by rewrite (entering_guarded loginState "Login" "alreadyLoggedIn"
                alreadyLoggedIn), alreadyLoggedIn_goes.
Qed.

Lemma entering_protected s title sessionService :
  resolve s = [("$title", λ _, ret (VStr title)); ("notLoggedIn", notLoggedIn)] →
  entering s sessionService
  = match getCurrentUser sessionService with
    | Fulfilled user => if truthy user then [] else ["login"]
    | Rejected _ => []
    end.
Proof.
  intros Hs. by rewrite (entering_guarded s title "notLoggedIn" notLoggedIn),
    notLoggedIn_goes.
Qed.

(** Settles the three parts of the statement about one state, once the
    promise of [getCurrentUser] is known. *)
Ltac by_cases :=
  split; [|split; [|simpl; auto]];
  (split; [try discriminate | try done]);
  try (intros; eauto; fail);
  try (intros (u & Hu' & Ht); congruence);
  try (intros _ (u & Hu' & Ht); congruence);
  try (intros Hno; destruct Hno; eauto; fail).

(** The falsy values: undefined, null, false, 0 and the empty string, and
    no other. *)
Lemma falsy_values v :
  truthy v = false
  ↔ v = VUndefined ∨ v = VNull ∨ v = VBool false ∨ v = VNum 0 ∨ v = VStr "".
Proof.
  destruct v as [| |b|n|s|xs|o]; simpl.
  - tauto.
  - tauto.
  - split; [intros ->; tauto|].
    intros [H|[H|[H|[H|H]]]]; congruence.
  - rewrite negb_false_iff, Z.eqb_eq. split; [intros ->; tauto|].
    intros [H|[H|[H|[H|H]]]]; congruence.
  - rewrite negb_false_iff, String.eqb_eq. split; [intros ->; tauto|].
    intros [H|[H|[H|[H|H]]]]; congruence.
  - split; [discriminate|]. intros [H|[H|[H|[H|H]]]]; discriminate.
  - split; [discriminate|]. intros [H|[H|[H|[H|H]]]]; discriminate.
Qed.

(** C5: entering the login state asks for the transition to [dashboard]
    exactly when the promise of [getCurrentUser] is fulfilled with a user
    (a truthy value), and for no transition otherwise; entering the
    dashboard state or one of the three contacts states asks for the
    transition to [login] exactly when that promise is fulfilled with no
    user (a falsy value), and for no transition otherwise; all four carry
    the same guard. The two error states carry no guard. The values that
    count as no user are undefined, null, false, 0 and the empty string;
    every other value (every object, every array, every non-empty string)
    counts as a user. *)
Theorem guards_redirect (sessionService : session_service) :
  let user_reported :=
    ∃ user, getCurrentUser sessionService = Fulfilled user ∧ truthy user = true in
  let no_user_reported :=
    ∃ none, getCurrentUser sessionService = Fulfilled none ∧ truthy none = false in
  ((entering loginState sessionService = ["dashboard"] ↔ user_reported)
   ∧ (entering loginState sessionService = [] ↔ ¬ user_reported)
   ∧ In ("alreadyLoggedIn", alreadyLoggedIn) (resolve loginState))
  ∧ Forall
      (λ s, (entering s sessionService = ["login"] ↔ no_user_reported)
            ∧ (entering s sessionService = [] ↔ ¬ no_user_reported)
            ∧ In ("notLoggedIn", notLoggedIn) (resolve s))
      [dashboardState; contactsIndexState; contactsNewState; contactsEditState]
  ∧ Forall (λ s, entering s sessionService = [])
      [unauthorizedState; notFoundState]
  ∧ (∀ v, truthy v = false
          ↔ v = VUndefined ∨ v = VNull ∨ v = VBool false ∨ v = VNum 0
            ∨ v = VStr "").
Proof.
  intros user_reported no_user_reported.
  subst user_reported no_user_reported.
  split; [|split; [|split; [|apply falsy_values]]].
  - rewrite entering_login.
    destruct (getCurrentUser sessionService) as [user|reason];
      [destruct (truthy user) eqn:Hu|]; by_cases.
  - repeat apply List.Forall_cons; try apply List.Forall_nil;
      (erewrite entering_protected by reflexivity);
      (destruct (getCurrentUser sessionService) as [user|reason];
       [destruct (truthy user) eqn:Hu|]); by_cases.
  - by repeat apply List.Forall_cons; try apply List.Forall_nil.
Qed.

(** A user (an object) who opens the login page is sent to the dashboard;
    a visitor (null) stays on the login page and is sent there from the
    dashboard and from each contacts page. *)
Lemma guards_redirect_witness :
  entering loginState loggedIn = ["dashboard"]
  ∧ entering loginState loggedOut = []
  ∧ Forall (λ s, entering s loggedOut = ["login"])
      [dashboardState; contactsIndexState; contactsNewState; contactsEditState]
  ∧ Forall (λ s, entering s loggedIn = [])
      [dashboardState; contactsIndexState; contactsNewState; contactsEditState].
Proof.
  destruct (guards_redirect loggedIn) as ((Hin & _ & _) & Hothers & _ & Hfalsy).
  destruct (guards_redirect loggedOut) as ((_ & Hout & _) & Hprot & _).
  split; [|split; [|split]].
  - apply Hin. eexists. split; [reflexivity|].
    destruct (truthy (literal [("name", VStr "root")])) eqn:Ht; [done|].
    apply Hfalsy in Ht as [H|[H|[H|[H|H]]]]; discriminate.
  - apply Hout. intros (user & Huser & Ht).
    injection Huser as <-. apply not_false_iff_true in Ht. apply Ht.
    apply Hfalsy. tauto.
  - eapply Forall_impl; [exact Hprot|]. simpl. intros s (Hlogin & _ & _).
    apply Hlogin. exists VNull. split; [reflexivity|]. apply Hfalsy. tauto.
  - eapply Forall_impl; [exact Hothers|]. simpl. intros s (_ & Hnone & _).
    apply Hnone. intros (none & Huser & Ht).
    apply Hfalsy in Ht as [H|[H|[H|[H|H]]]]; subst none; discriminate.
Defined.

(** The guards on three sessions: a user, no user, no answer. *)
Example login_guard_samples :
  (entering loginState loggedIn, entering loginState loggedOut,
   entering loginState sessionDown)
  = (["dashboard"], [], []).
Proof. reflexivity. Qed.

Example edit_guard_samples :
  (entering contactsEditState loggedIn, entering contactsEditState loggedOut,
   entering contactsEditState sessionDown)
  = ([], ["login"], []).
Proof. reflexivity. Qed.

(** *** The registered states *)

(** A pattern that is one [*name] matches every path. *)
Lemma splat_matches_all path : matches_tokens [Splat] path = true.
Proof.
  induction path as [|c path IH]; [reflexivity|].
  simpl in *. exact IH.
Qed.

(** Each of the first six patterns on a path of its own. *)
Example own_paths :
  map (λ sp, matches (url (fst sp)) (snd sp))
    [(loginState, "/login"); (dashboardState, "/");
     (contactsIndexState, "/contacts"); (contactsNewState, "/contacts/new");
     (contactsEditState, "/contacts/42"); (unauthorizedState, "/401")]
  = [true; true; true; true; true; true].
Proof. reflexivity. Qed.

(** A path that only the last pattern matches. *)
Example unknown_path :
  map (λ s, matches (url s) "/nowhere/at/all") (states configured)
  = [false; false; false; false; false; false; true].
Proof. reflexivity. Qed.

(** C7: [config] registers seven states with the state provider, in this
    order: login at /login, dashboard at /, contacts at /contacts,
    contacts-new at /contacts/new, contacts-edit at /contacts/:id,
    unauthorized at /401 with the 401 page, and notFound with the 404 page
    at *path, a pattern that matches every path. *)
Theorem seven_states (before : providers) :
  let after := snd (config before) in
  states after
  = states before
    ++ [loginState; dashboardState; contactsIndexState; contactsNewState;
        contactsEditState; unauthorizedState; notFoundState]
  ∧ map (λ s, (name s, url s)) (states configured)
    = [("login", "/login"); ("dashboard", "/"); ("contacts", "/contacts");
       ("contacts-new", "/contacts/new"); ("contacts-edit", "/contacts/:id");
       ("unauthorized", "/401"); ("notFound", "*path")]
  ∧ templateUrl unauthorizedState = "/features/error/401.html"
  ∧ templateUrl notFoundState = "/features/error/404.html"
  ∧ (∀ path, matches (url notFoundState) path = true).
Proof.
  simpl. repeat rewrite <- app_assoc. simpl.
  do 4 (split; [reflexivity|]).
  intros path. apply splat_matches_all.
Qed.

End ClientProps.

(** ** More properties of the contact controller *)

Module ServerMore.
Import Server Spec Samples Express ServerProps.

(** Every run of a handler is of one of the three kinds. *)
Lemma run_kinds (Contact : dbop → answer) (req : request)
    (h : list (gmap string value)) :
  Forall
    (λ f, let w := run Contact f req h in
          (∃ op c v, Contact op = Resolves v ∧ w = answered h op c v
                     ∧ (c = 200 ∨ c = 201)%Z)
          ∨ (∃ op e c, Contact op = Rejects e ∧ w = forwarded h op e c
                       ∧ (c = 503 ∨ c = 404)%Z)
          ∨ (∃ op v, Contact op = Resolves v ∧ truthy v = false
                     ∧ w = not_found h op v))
    handlers.
Proof.
  unfold handlers.
  repeat apply List.Forall_cons; try apply List.Forall_nil; cbv zeta.
  - by_answer Contact (Find (literal [])).
    + rewrite (getContacts_resolved _ _ _ _ Ha). eauto 10.
    + rewrite (getContacts_rejected _ _ _ _ Ha). eauto 10.
  - by_answer Contact (FindOne (by_id req)).
    + destruct (truthy a) eqn:Ht.
      * rewrite (getContact_found _ _ _ _ Ha Ht). eauto 10.
      * rewrite (getContact_missing _ _ _ _ Ha Ht). eauto 10.
    + rewrite (getContact_rejected _ _ _ _ Ha). eauto 10.
  - by_answer Contact (Save (contact_fields req)).
    + rewrite (addContact_resolved _ _ _ _ Ha). eauto 10.
    + rewrite (addContact_rejected _ _ _ _ Ha). eauto 10.
  - by_answer Contact (FindOneAndRemove (by_id req)).
    + rewrite (deleteContact_resolved _ _ _ _ Ha). eauto 10.
    + rewrite (deleteContact_rejected _ _ _ _ Ha). eauto 10.
  - by_answer Contact (update_call req).
    + rewrite (editContact_resolved _ _ _ _ Ha). eauto 10.
    + rewrite (editContact_rejected _ _ _ _ Ha). eauto 10.
Qed.

(** X1: [getContacts] answers 200 with the list exactly when [find] is
    resolved and forwards an error with status 503 exactly when it is
    rejected; [addContact] answers 201 with the saved document exactly
    when [save] is resolved and forwards an error with status 503 exactly
    when it is rejected. *)
Theorem list_and_add_outcomes (Contact : dbop → answer) (req : request)
    (h : list (gmap string value)) :
  (∀ v, replies (run Contact getContacts req h) = [Sent 200 v]
        ↔ Contact (Find (literal [])) = Resolves v)
  ∧ ((∃ err, replies (run Contact getContacts req h)
             = [Forwarded err (Some (VNum 503))])
     ↔ ∃ e, Contact (Find (literal [])) = Rejects e)
  ∧ (∀ v, replies (run Contact addContact req h) = [Sent 201 v]
          ↔ Contact (Save (contact_fields req)) = Resolves v)
  ∧ ((∃ err, replies (run Contact addContact req h)
             = [Forwarded err (Some (VNum 503))])
     ↔ ∃ e, Contact (Save (contact_fields req)) = Rejects e).
Proof.
  assert (∀ op f c,
    (∀ v, Contact op = Resolves v → run Contact f req h = answered h op c v) →
    (∀ e, Contact op = Rejects e → run Contact f req h = forwarded h op e 503) →
    (∀ v, replies (run Contact f req h) = [Sent c v] ↔ Contact op = Resolves v)
    ∧ ((∃ err, replies (run Contact f req h) = [Forwarded err (Some (VNum 503))])
       ↔ ∃ e, Contact op = Rejects e)) as Hboth.
  { intros op f c Hres Hrej. by_answer Contact op.
    - rewrite (Hres _ eq_refl), replies_answered. split.
      + intros v. split; congruence.
      + split; [intros [err Herr]|intros [e He]]; discriminate.
    - rewrite (Hrej _ eq_refl), replies_forwarded. split.
      + intros v. split; discriminate.
      + split; eauto. }
  destruct (Hboth (Find (literal [])) getContacts 200%Z) as [H1 H2];
    [intros; by apply getContacts_resolved
    |intros; by apply getContacts_rejected|].
  destruct (Hboth (Save (contact_fields req)) addContact 201%Z) as [H3 H4];
    [intros; by apply addContact_resolved
    |intros; by apply addContact_rejected|].
  auto.
Qed.

(** X2: a run of a handler is a driver call followed by one response, or
    a driver call followed by the log of an error and the hand-over of
    that same error to [next]. So a handler never logs when it answers,
    never hands over an error it has not logged, and does nothing after
    its reply. *)
Theorem trace_shapes (Contact : dbop → answer) (req : request)
    (h : list (gmap string value)) :
  Forall
    (λ f, let w := run Contact f req h in
          (∃ op c v, trace w = [EvDb op (Fulfilled v); EvSend c v])
          ∨ (∃ op s err, trace w = [EvDb op s; EvLog err; EvNext err]))
    handlers.
Proof.
  eapply Forall_impl; [apply run_kinds|]. cbv zeta.
  intros f [(op & c & v & _ & -> & _)|[(op & e & c & _ & -> & _)|(op & v & _ & _ & ->)]];
    simpl; eauto 6.
Qed.


(** *** Runs from any world *)

Section From.

Variable Contact : dbop → answer.







End From.



(** X5: [getContacts] reads nothing of the request; [getContact] and
    [deleteContact] read [req.params.id] and nothing else, so that two
    requests with the same id (and any bodies) lead to the same run. *)
Theorem request_parts_read (Contact : dbop → answer) (req1 req2 : request)
    (h : list (gmap string value)) :
  run Contact getContacts req1 h = run Contact getContacts req2 h
  ∧ (prop (params req1) "id" = prop (params req2) "id" →
     run Contact getContact req1 h = run Contact getContact req2 h
     ∧ run Contact deleteContact req1 h = run Contact deleteContact req2 h).
Proof.
  split; [reflexivity|]. intros Hid.
  unfold run, getContact, deleteContact. cbv zeta. by rewrite Hid.
Qed.

(** Two requests for the same id with different bodies. *)
Lemma request_parts_read_witness :
  body annRequest ≠ body annRequestExtra
  ∧ run annStore getContact annRequest [] = run annStore getContact annRequestExtra []
  ∧ run downStore deleteContact annRequest []
    = run downStore deleteContact annRequestExtra [].
Proof.
  split.
  - intros Heq. apply (f_equal (λ o, o !! "admin")) in Heq. discriminate.
  - split.
    + apply (request_parts_read annStore annRequest annRequestExtra []).
      reflexivity.
    + apply (request_parts_read downStore annRequest annRequestExtra []).
      reflexivity.
Defined.

Lemma by_id_inj req1 req2 :
  by_id req1 = by_id req2 → prop (params req1) "id" = prop (params req2) "id".
Proof.
  unfold by_id, literal. simpl. intros Heq.
  apply (f_equal (λ v, match v with VObj o => o !! "id" | _ => None end))
    in Heq.
  rewrite !lookup_insert_eq in Heq. congruence.
Qed.

(** X6: [editContact] hands the whole request body to the driver as the
    update: two requests lead to the same driver call exactly when they
    have the same body and the same id. So, unlike in [addContact], every
    property of the body reaches the driver. *)
Theorem editContact_passes_body (Contact : dbop → answer)
    (req1 req2 : request) (h : list (gmap string value)) :
  db_calls (run Contact editContact req1 h)
  = db_calls (run Contact editContact req2 h)
  ↔ body req1 = body req2
    ∧ prop (params req1) "id" = prop (params req2) "id".
Proof.
  destruct (editContact_calls Contact req1 h) as [_ ->].
  destruct (editContact_calls Contact req2 h) as [_ ->].
  unfold update_call. split.
  - intros Heq.
    assert (by_id req1 = by_id req2 ∧ VObj (body req1) = VObj (body req2))
      as [Hid Hbody] by (split; congruence).
    split; [congruence|]. by apply by_id_inj.
  - intros [Hbody Hid]. unfold by_id. by rewrite Hbody, Hid.
Qed.

(** The extra property of the body reaches the driver in [editContact]. *)
Example editContact_extra_field :
  db_calls (run annStore editContact annRequest [])
  ≠ db_calls (run annStore editContact annRequestExtra []).
Proof.
  destruct (editContact_calls annStore annRequest []) as [_ ->].
  destruct (editContact_calls annStore annRequestExtra []) as [_ ->].
  unfold update_call. intros Heq.
  assert (VObj (body annRequest) = VObj (body annRequestExtra)) as Hbody
    by congruence.
  apply (f_equal (λ v, match v with VObj o => o !! "admin" | _ => None end))
    in Hbody.
  discriminate.
Qed.

(** X7: the error object that a handler forwards for a rejected call is
    the object of the driver with one property written: [status] is 503
    or 404 afterwards, whatever it was before (a status the driver gave
    the error is lost), and every other property is as the driver left
    it. *)
Theorem error_status_overwritten (Contact : dbop → answer)
    (f : (dbop → answer) → handler) (req : request)
    (h : list (gmap string value)) (op : dbop) (err : loc) :
  In f handlers →
  In (EvDb op (Rejected err)) (trace (run Contact f req h)) →
  ∃ e o c,
    Contact op = Rejects e
    ∧ heap (run Contact f req h) !! err = Some o
    ∧ o !! "status" = Some (VNum c) ∧ (c = 503 ∨ c = 404)%Z
    ∧ (∀ k, k ≠ "status" → o !! k = e !! k)
    ∧ replies (run Contact f req h) = [Forwarded err (Some (VNum c))].
Proof.
  intros Hf Hin.
  pose proof (run_kinds Contact req h) as Hkinds.
  rewrite List.Forall_forall in Hkinds. specialize (Hkinds f Hf).
  cbv zeta in Hkinds.
  destruct Hkinds
    as [(op' & c & v & _ & Hw & _)
       |[(op' & e & c & He & Hw & Hc)|(op' & v & _ & _ & Hw)]];
    rewrite Hw in *; simpl in Hin.
  - destruct Hin as [Hin|[Hin|[]]]; discriminate.
  - destruct Hin as [Hin|[Hin|[Hin|[]]]]; try discriminate.
    injection Hin as -> <-.
    exists e, (<["status" := VNum c]> e), c.
    rewrite replies_forwarded. simpl.
    rewrite (list_lookup_middle h [] _ (length h) eq_refl).
    rewrite lookup_insert_eq.
    repeat split; try done.
    intros k Hk. by rewrite lookup_insert_ne.
  - destruct Hin as [Hin|[Hin|[Hin|[]]]]; discriminate.
Qed.

(** [addContact] on a store that rejects with an error of status 400:
    the error is forwarded with status 503 and keeps its name. *)
Lemma error_status_overwritten_witness :
  validationError !! "status" = Some (VNum 400)
  ∧ ∃ e o c,
      strictStore (Save (contact_fields annRequest)) = Rejects e
      ∧ heap (run strictStore addContact annRequest []) !! 0 = Some o
      ∧ o !! "status" = Some (VNum c) ∧ (c = 503 ∨ c = 404)%Z
      ∧ (∀ k, k ≠ "status" → o !! k = e !! k)
      ∧ replies (run strictStore addContact annRequest [])
        = [Forwarded 0 (Some (VNum c))].
Proof.
  split; [reflexivity|].
  apply (error_status_overwritten strictStore addContact annRequest []
           (Save (contact_fields annRequest)) 0).
  - simpl. auto.
  - left. reflexivity.
Defined.

(** X8: when the lookup of [getContact] is resolved with a falsy result
    (null, but also undefined, false, 0 or the empty string), the error
    handed to [next] is a new object, at an address that was free, with
    the message "Contact could not be found." and the status 404, and it
    is logged before it is handed over. *)
Theorem not_found_error (Contact : dbop → answer) (req : request)
    (h : list (gmap string value)) (v : value) :
  Contact (FindOne (by_id req)) = Resolves v →
  truthy v = false →
  let w := run Contact getContact req h in
  let err := length h in
  h !! err = None
  ∧ heap w !! err
    = Some (<["status" := VNum 404]>
              {[ "message" := VStr "Contact could not be found." ]})
  ∧ trace w = [EvDb (FindOne (by_id req)) (Fulfilled v); EvLog err; EvNext err].
Proof.
  intros Hop Hv. cbv zeta. rewrite (getContact_missing _ _ _ _ Hop Hv).
  split; [by apply lookup_ge_None_2|]. split; [|done].
  unfold not_found. simpl.
  by rewrite (list_lookup_middle h [] _ (length h) eq_refl).
Qed.

(** A lookup that is resolved with the number 0. *)
Lemma not_found_error_witness :
  let w := run (λ _, Resolves (VNum 0)) getContact annRequest [] in
  heap w !! 0
  = Some (<["status" := VNum 404]>
            {[ "message" := VStr "Contact could not be found." ]})
  ∧ replies w = [Forwarded 0 (Some (VNum 404))].
Proof.
  destruct (not_found_error (λ _, Resolves (VNum 0)) annRequest [] (VNum 0))
    as (_ & Hheap & _); [reflexivity..|].
  split; [exact Hheap | reflexivity].
Defined.

(** X9: on every route of the controller the [protected] middleware runs
    first and decides: when it does not hand the request on, the world
    after the route is the world [protected] left (no handler has run, no
    driver call was made for the request); when it does, one of the five
    handlers runs in the world [protected] left. *)
Theorem protected_decides (Contact : dbop → answer) (protected : middleware)
    (req : request) (w0 : world) :
  Forall
    (λ r, let w := snd (run_stack (stack r) req w0) in
          if fst (protected req w0)
          then ∃ f, In f handlers
                    ∧ In (Handler (f Contact)) (stack r)
                    ∧ w = snd (f Contact req (snd (protected req w0)))
          else w = snd (protected req w0))
    (ContactController Contact protected).
Proof.
  unfold ContactController, handlers. simpl.
  repeat apply List.Forall_cons; try apply List.Forall_nil;
    simpl; unfold bind; destruct (protected req w0) as [[|] w1]; simpl;
    eauto 12.
Qed.

(** A request that [deny] stops: the 401 of the middleware is the only
    reply, and the driver is not called. *)
Example denied_request :
  map (λ r, let w := snd (run_stack (stack r) annRequest (start [])) in
            (replies w, db_calls w))
    (ContactController annStore deny)
  = repeat ([Sent 401 (literal [("message", VStr "Unauthorized")])], []) 5.
Proof. reflexivity. Qed.

(** A request that [allow] lets through reaches the handler. *)
Example allowed_request :
  map (λ r, replies (snd (run_stack (stack r) annRequest (start []))))
    (ContactController annStore allow)
  = [[Sent 200 ann]; [Sent 200 ann]; [Sent 201 ann]; [Sent 200 ann];
     [Sent 200 ann]].
Proof. reflexivity. Qed.

End ServerMore.

(** ** More properties of the client router *)

Module ClientMore.
Import Client Samples Navigation ClientProps.

(** What entering each registered state asks for. *)
Lemma entering_registered sessionService :
  Forall
    (λ s, entering s sessionService = []
          ∨ (entering s sessionService = ["dashboard"] ∧ s = loginState
             ∧ ∃ user, getCurrentUser sessionService = Fulfilled user
                       ∧ truthy user = true)
          ∨ (entering s sessionService = ["login"] ∧ s ≠ loginState
             ∧ ∃ none, getCurrentUser sessionService = Fulfilled none
                       ∧ truthy none = false))
    (states configured).
Proof.
  assert (∀ s, name s ≠ "login" → s ≠ loginState) as Hname
    by (intros s Hs ->; by apply Hs).
  repeat apply List.Forall_cons; try apply List.Forall_nil;
    try (left; reflexivity).
  - rewrite entering_login.
    destruct (getCurrentUser sessionService) as [user|reason];
      [destruct (truthy user) eqn:Hu|]; eauto 8.
  - erewrite entering_protected by reflexivity.
    destruct (getCurrentUser sessionService) as [user|reason];
      [destruct (truthy user) eqn:Hu|]; eauto 8.
  - erewrite entering_protected by reflexivity.
    destruct (getCurrentUser sessionService) as [user|reason];
      [destruct (truthy user) eqn:Hu|]; eauto 8.
  - erewrite entering_protected by reflexivity.
    destruct (getCurrentUser sessionService) as [user|reason];
      [destruct (truthy user) eqn:Hu|]; eauto 8.
  - erewrite entering_protected by reflexivity.
    destruct (getCurrentUser sessionService) as [user|reason];
      [destruct (truthy user) eqn:Hu|]; eauto 8.
Qed.

(** X10: every transition that the [resolve] block of a registered state
    asks for names a registered state, and no two registered states have
    the same name: [$state.go] always finds its target, and only one. *)
Theorem transitions_find_their_state (sessionService : session_service) :
  Forall
    (λ s, Forall
            (λ target, ∃ s', find_state configured target = Some s'
                             ∧ name s' = target ∧ In s' (states configured))
            (entering s sessionService))
    (states configured)
  ∧ NoDup (map name (states configured)).
Proof.
  split.
  - eapply Forall_impl; [apply entering_registered|]. simpl.
    intros s [->|[(-> & _)|(-> & _)]].
    + apply List.Forall_nil.
    + apply List.Forall_cons; [|apply List.Forall_nil].
      exists dashboardState. simpl. auto.
    + apply List.Forall_cons; [|apply List.Forall_nil].
      exists loginState. simpl. auto.
  - simpl. rewrite !NoDup_cons, !not_elem_of_cons.
    repeat split; try discriminate; try apply not_elem_of_nil.
    apply NoDup_nil_2.
Qed.

(** *** Following the transitions *)

Lemma navigate_stays fuel p sessionService s :
  entering s sessionService = [] →
  navigate fuel p sessionService s = [name s].
Proof. intros Hs. destruct fuel; simpl; [done|]. by rewrite Hs. Qed.

Lemma navigate_once fuel p sessionService s target s' :
  entering s sessionService = [target] →
  find_state p target = Some s' →
  entering s' sessionService = [] →
  navigate (S fuel) p sessionService s = [name s; name s'].
Proof.
  intros Hs Hfind Hs'. simpl. rewrite Hs. simpl. rewrite Hfind.
  by rewrite navigate_stays.
Qed.

(** X11: there is no redirect loop. From every registered state, and
    whatever the session service answers (the same answer each time it is
    asked), following the transitions ends after one transition at most,
    in a registered state that asks for none. *)
Theorem navigation_settles (sessionService : session_service) (fuel : nat) :
  Forall
    (λ s, let visited := navigate (S fuel) configured sessionService s in
          visited = navigate 1 configured sessionService s
          ∧ length visited ≤ 2
          ∧ ∃ s', In s' (states configured)
                  ∧ last visited = Some (name s')
                  ∧ entering s' sessionService = [])
    (states configured).
Proof.
  pose proof (entering_registered sessionService) as Hall.
  rewrite List.Forall_forall in Hall |- *. intros s Hs. cbv zeta.
  destruct (Hall s Hs) as [Hnone|[(Hgo & -> & user & Huser & Ht)
                                 |(Hgo & _ & none & Hnouser & Ht)]].
  - rewrite !navigate_stays by done.
    split; [done|]. split; [simpl; lia|]. by exists s.
  - assert (entering dashboardState sessionService = []) as Hthere.
    { erewrite entering_protected by reflexivity. by rewrite Huser, Ht. }
    rewrite !(navigate_once _ configured _ _ _ dashboardState Hgo eq_refl Hthere).
    simpl. split; [done|]. split; [lia|].
    exists dashboardState. simpl. auto.
  - assert (entering loginState sessionService = []) as Hthere.
    { rewrite entering_login. by rewrite Hnouser, Ht. }
    rewrite !(navigate_once _ configured _ _ _ loginState Hgo eq_refl Hthere).
    simpl. split; [done|]. split; [lia|].
    exists loginState. simpl. auto.
Qed.

(** The three sessions: a user who opens the login page is sent to the
    dashboard, a visitor who opens a contact is sent to the login page,
    and nobody is sent anywhere when the session service fails. *)
Example navigation_samples :
  (navigate 5 configured loggedIn loginState,
   navigate 5 configured loggedOut contactsEditState,
   navigate 5 configured sessionDown contactsEditState)
  = (["login"; "dashboard"], ["contacts-edit"; "login"], ["contacts-edit"]).
Proof. reflexivity. Qed.

(** *** The state of a path *)

Lemma rest_of_one_segment id : one_segment id → rest_of_segment id = "".
Proof.
  unfold one_segment. induction id as [|c id IH]; [done|]. simpl.
  intros Hno. destruct (Ascii.eqb_spec c "/") as [->|Hc].
  - destruct Hno. by left.
  - apply IH. intros Hin. apply Hno. by right.
Qed.

Lemma matches_new id :
  matches_tokens [Lit "n"; Lit "e"; Lit "w"] id = String.eqb id "new".
Proof.
  destruct id as [|c1 [|c2 [|c3 [|c4 id]]]]; simpl;
    rewrite ?(Ascii.eqb_sym "n"), ?(Ascii.eqb_sym "e"), ?(Ascii.eqb_sym "w");
    try done; repeat (case_match; simpl; try done).
Qed.

#[local] Arguments Ascii.eqb : simpl never.

(** Evaluates the comparisons of two known characters. *)
Ltac known_chars :=
  repeat match goal with
  | |- context [Ascii.eqb (Ascii ?a0 ?a1 ?a2 ?a3 ?a4 ?a5 ?a6 ?a7)
                          (Ascii ?b0 ?b1 ?b2 ?b3 ?b4 ?b5 ?b6 ?b7)] =>
      let b := eval vm_compute in
        (Ascii.eqb (Ascii a0 a1 a2 a3 a4 a5 a6 a7)
                   (Ascii b0 b1 b2 b3 b4 b5 b6 b7)) in
      change (Ascii.eqb (Ascii a0 a1 a2 a3 a4 a5 a6 a7)
                        (Ascii b0 b1 b2 b3 b4 b5 b6 b7)) with b
  end.

(** Matches a pattern against a path that starts with known characters,
    as far as these go. *)
Ltac match_prefix :=
  unfold matches; cbv [String.append];
  match goal with
  | |- context [scan false ?u] =>
      let t := eval vm_compute in (scan false u) in
      change (scan false u) with t
  end;
  simpl; known_chars; simpl.

(** The seven patterns on a path [/contacts/<id>]. *)
Lemma contact_path_matches id :
  map (λ s, matches (url s) (String.append "/contacts/" id)) (states configured)
  = [false; false; false; String.eqb id "new";
     String.eqb (rest_of_segment id) ""; false; true].
Proof.
  change (states configured)
    with [loginState; dashboardState; contactsIndexState; contactsNewState;
          contactsEditState; unauthorizedState; notFoundState].
  cbn [map].
  assert (matches (url contactsNewState) (String.append "/contacts/" id)
          = String.eqb id "new") as ->
    by (match_prefix; apply matches_new).
  assert (matches (url notFoundState) (String.append "/contacts/" id) = true)
    as -> by apply splat_matches_all.
  repeat f_equal; by match_prefix.
Qed.

(** X12: a path [/contacts/<id>] whose id is one non-empty segment has
    the edit state, but for the id "new", which has the create state: of the two
    patterns that match [/contacts/new], the one registered first wins. *)
Theorem contact_paths (id : string) :
  one_segment id → id ≠ "" →
  state_for configured (String.append "/contacts/" id)
  = Some (if String.eqb id "new" then contactsNewState else contactsEditState).
Proof.
  intros Hseg _. unfold state_for.
  pose proof (contact_path_matches id) as Hm.
  change (states configured)
    with [loginState; dashboardState; contactsIndexState; contactsNewState;
          contactsEditState; unauthorizedState; notFoundState] in *.
  cbn [map] in Hm.
  assert (∀ (a b : bool) (l l' : list bool), a :: l = b :: l' → a = b ∧ l = l')
    as Hcons by (intros a b l l' Heq; split; congruence).
  apply Hcons in Hm as [H1 Hm]. apply Hcons in Hm as [H2 Hm].
  apply Hcons in Hm as [H3 Hm]. apply Hcons in Hm as [H4 Hm].
  apply Hcons in Hm as [H5 _].
  cbn [List.find]. rewrite H1, H2, H3, H4, H5.
  rewrite (rest_of_one_segment id Hseg).
  by destruct (String.eqb id "new").
Qed.

Lemma contact_paths_witness :
  state_for configured "/contacts/42" = Some contactsEditState
  ∧ state_for configured "/contacts/new" = Some contactsNewState.
Proof.
  split.
  - apply (contact_paths "42"); [|discriminate].
    unfold one_segment. simpl. intros [H|[H|[]]]; discriminate.
  - apply (contact_paths "new"); [|discriminate].
    unfold one_segment. simpl. intros [H|[H|[H|[]]]]; discriminate.
Defined.

End ClientMore.
